(** * The property reader of gstd: [gstd_property_reader.c]

    A shallow embedding of [gstd_property_reader_read] and of
    [gstd_property_mask_type], the two functions of
    [src/gstd/gstd_property_reader.c], together with the part of the GObject
    run time they call: instances with a class and a name, property
    descriptors ([GParamSpec]) found by name, the property getter, the
    instance type check and object construction.

    The C code returns a pointer and reports every failure as [NULL] after a
    log record; it reads the object and may allocate one new object.  The
    embedding therefore is a small state and fault monad: the state holds the
    object heap and the log, and a run either returns a value with the new
    state or stops on a fault where the C code dereferences an invalid
    pointer.

    The reader declares [GstdObject * resource] without a value, lets
    [g_object_get] store the property's value at its address, whatever the
    type of the property, and then runs the instance check on the variable.
    The embedding follows the store: it keeps what the eight bytes of
    [resource] hold afterwards, given what the variable held before.  *)

From Stdlib Require Import ZArith.
From stdpp Require Import base option strings list gmap.

Local Open Scope Z_scope.

(** ** GLib constants

    [GType] and [GParamFlags] are machine integers in C; the fundamental type
    numbers and the readable flag are the ones of GLib's [gtype.h] and
    [gparam.h]. *)

Definition GType := Z.

Definition G_TYPE_FUNDAMENTAL_SHIFT : Z := 2.
Definition G_TYPE_MAKE_FUNDAMENTAL (x : Z) : GType :=
  Z.shiftl x G_TYPE_FUNDAMENTAL_SHIFT.

Definition G_TYPE_BOOLEAN : GType := G_TYPE_MAKE_FUNDAMENTAL 5.
Definition G_TYPE_INT : GType := G_TYPE_MAKE_FUNDAMENTAL 6.
Definition G_TYPE_UINT : GType := G_TYPE_MAKE_FUNDAMENTAL 7.
Definition G_TYPE_LONG : GType := G_TYPE_MAKE_FUNDAMENTAL 8.
Definition G_TYPE_ULONG : GType := G_TYPE_MAKE_FUNDAMENTAL 9.
Definition G_TYPE_INT64 : GType := G_TYPE_MAKE_FUNDAMENTAL 10.
Definition G_TYPE_UINT64 : GType := G_TYPE_MAKE_FUNDAMENTAL 11.
Definition G_TYPE_ENUM : GType := G_TYPE_MAKE_FUNDAMENTAL 12.
Definition G_TYPE_FLAGS : GType := G_TYPE_MAKE_FUNDAMENTAL 13.
Definition G_TYPE_FLOAT : GType := G_TYPE_MAKE_FUNDAMENTAL 14.
Definition G_TYPE_DOUBLE : GType := G_TYPE_MAKE_FUNDAMENTAL 15.
Definition G_TYPE_STRING : GType := G_TYPE_MAKE_FUNDAMENTAL 16.
Definition G_TYPE_POINTER : GType := G_TYPE_MAKE_FUNDAMENTAL 17.
Definition G_TYPE_BOXED : GType := G_TYPE_MAKE_FUNDAMENTAL 18.
Definition G_TYPE_OBJECT : GType := G_TYPE_MAKE_FUNDAMENTAL 20.

Definition G_PARAM_READABLE : Z := Z.shiftl 1 0.

(** ** Data model *)

(** Object addresses; a C pointer that may be [NULL] is an [option addr]. *)
Definition addr := positive.

(** The run-time class of an instance.  The three property classes are the
    ones this file instantiates; [GSTD_TYPE_OBJECT] and [GSTD_TYPE_ELEMENT]
    are the base resource and the element of [gstd_element.h]; any GObject
    that is not a [GstdObject] is [G_TYPE_FOREIGN_OBJECT]. *)
Inductive GstdType : Type :=
  | GSTD_TYPE_OBJECT
  | GSTD_TYPE_ELEMENT
  | GSTD_TYPE_PROPERTY_BOOLEAN
  | GSTD_TYPE_PROPERTY_INT
  | GSTD_TYPE_PROPERTY_STRING
  | G_TYPE_FOREIGN_OBJECT.

Global Instance GstdType_eq_dec : EqDecision GstdType.
Proof. solve_decision. Defined.

(** What a property holds.  Integers of every width are [v_int]; a string or
    an object may be [NULL]; a double is given by the 64 bits of its
    representation. *)
Inductive GValue : Type :=
  | v_boolean (b : bool)
  | v_int (z : Z)
  | v_string (s : option string)
  | v_object (p : option addr)
  | v_double (bits : Z).

(** What the eight bytes of a pointer variable hold: all bits zero, the
    address of an instance, or anything else (the bits of a number, the
    address of a string buffer).  Addresses of instances are abstract, so no
    number is taken to be one. *)
Inductive pointer : Type :=
  | p_null
  | p_instance (a : addr)
  | p_wild.

(** [GParamSpec]: the fields the reader uses. *)
Record GParamSpec : Type := mk_pspec {
  pspec_name : string;
  flags : Z;
  value_type : GType
}.

(** [GObjectClass]: its type and the properties installed on it. *)
Record GObjectClass : Type := mk_class {
  g_type : GstdType;
  properties : list GParamSpec
}.

(** An instance: its class, the [name] field read by [GSTD_OBJECT_NAME], and
    the current value of its properties. *)
Record GstdObject : Type := mk_object {
  g_class : GObjectClass;
  name : string;
  values : list (string * GValue)
}.

(** Log records.  [GST_ERROR_OBJECT (obj, fmt, ...)] logs the formatted text
    on behalf of [obj]; [g_return_val_if_fail] logs a critical warning that
    carries the function and the failed expression.  [EvGetProperty] is the
    call of the object's property getter made by [g_object_get]. *)
Inductive event : Type :=
  | EvError (obj : option addr) (msg : string)
  | EvCritical (func expr : string)
  | EvGetProperty (obj : addr) (prop : string).

Record state : Type := mk_state {
  heap : gmap addr GstdObject;
  events : list event
}.

(** Where the C code dereferences a pointer that is not valid: the [NULL]
    descriptor, the address of no live instance, or bits that are no address
    of an instance at all. *)
Inductive fault : Type :=
  | NullParamSpec
  | InvalidInstance (a : addr)
  | NotAnInstance.

Inductive result (A : Type) : Type :=
  | Ret (a : A) (s : state)
  | Fault (f : fault).
Arguments Ret {A} a s.
Arguments Fault {A} f.

(** ** The monad *)

Definition M (A : Type) : Type := state -> result A.

Definition ret {A} (a : A) : M A := fun s => Ret a s.

Definition bind {A B} (m : M A) (k : A -> M B) : M B :=
  fun s => match m s with
           | Ret a s' => k a s'
           | Fault f => Fault f
           end.

Definition raise {A} (f : fault) : M A := fun _ => Fault f.

Declare Scope gstd_scope.
Delimit Scope gstd_scope with gstd.
Notation "x <- m ;; k" := (bind m (fun x => k))
  (at level 100, m at next level, right associativity) : gstd_scope.
Notation "m ;; k" := (bind m (fun _ => k))
  (at level 100, right associativity) : gstd_scope.
Local Open Scope gstd_scope.

Definition emit (e : event) : M unit :=
  fun s => Ret tt (mk_state (heap s) (events s ++ [e])).

Definition deref (a : addr) : M GstdObject :=
  fun s => match heap s !! a with
           | Some o => Ret o s
           | None => Fault (InvalidInstance a)
           end.

(** ** The GObject run time, as far as the reader calls it *)

(** [G_OBJECT_GET_CLASS (object)] reads the class pointer of the instance. *)
Definition G_OBJECT_GET_CLASS (object : addr) : M GObjectClass :=
  o <- deref object ;; ret (g_class o).

(** [GSTD_OBJECT_NAME (object)] reads the [name] field. *)
Definition GSTD_OBJECT_NAME (object : addr) : M string :=
  o <- deref object ;; ret (name o).

(** GLib's [canonicalize_key] and [is_canonical]: in a property name the
    underscore is read as a dash. *)
Definition underscore : Ascii.ascii := Ascii.ascii_of_nat 95.
Definition dash : Ascii.ascii := Ascii.ascii_of_nat 45.

Fixpoint canonicalize_key (key : string) : string :=
  match key with
  | EmptyString => EmptyString
  | String c rest =>
      String (if Ascii.eqb c underscore then dash else c)
        (canonicalize_key rest)
  end.

Fixpoint is_canonical (key : string) : bool :=
  match key with
  | EmptyString => true
  | String c rest => negb (Ascii.eqb c underscore) && is_canonical rest
  end.

(** The descriptor installed under exactly this name. *)
Definition param_spec_lookup (klass : GObjectClass) (nm : string)
  : option GParamSpec :=
  find (fun p => bool_decide (pspec_name p = nm)) (properties klass).

(** [g_object_class_find_property]: the descriptor installed under this
    name; when there is none and the name is not canonical, the one
    installed under its canonical form; else [NULL].  (The qualified form
    [Type::name] of GLib is not modelled.) *)
Definition g_object_class_find_property (klass : GObjectClass) (nm : string)
  : option GParamSpec :=
  match param_spec_lookup klass nm with
  | Some pspec => Some pspec
  | None =>
      if is_canonical nm then None
      else param_spec_lookup klass (canonicalize_key nm)
  end.

Definition lookup_value (nm : string) (vs : list (string * GValue))
  : option GValue :=
  snd <$> find (fun kv => bool_decide (fst kv = nm)) vs.

(** What the getter of an instance answers when asked for a property by
    name: the value kept under the name of the descriptor found; a property
    without a value reads as [NULL]. *)
Definition property_value (o : GstdObject) (nm : string) : GValue :=
  match g_object_class_find_property (g_class o) nm with
  | Some pspec =>
      default (v_object None) (lookup_value (pspec_name pspec) (values o))
  | None => v_object None
  end.

(** Eight bytes read as a pointer. *)
Definition pointer_of_bits (w : Z) : pointer :=
  if Z.land w (Z.ones 64) =? 0 then p_null else p_wild.

(** Four bytes stored over the low half of eight (the variable is on a
    little-endian machine with 64-bit pointers): the high half keeps what
    was there. *)
Definition store32 (before w : Z) : Z :=
  Z.lor (Z.land w (Z.ones 32)) (Z.land before (Z.shiftl (Z.ones 32) 32)).

(** What [G_VALUE_LCOPY] leaves in a pointer variable that held [before]:
    a [gboolean], a [gint] or a [guint] is four bytes wide; every other
    number is eight bytes wide; a string is the address of its copy, no
    instance; an object is its address. *)
Definition lcopy (before : Z) (t : GType) (v : GValue) : pointer :=
  match v with
  | v_object None => p_null
  | v_object (Some a) => p_instance a
  | v_string None => p_null
  | v_string (Some _) => p_wild
  | v_boolean b => pointer_of_bits (store32 before (Z.b2z b))
  | v_int z =>
      if (t =? G_TYPE_INT) || (t =? G_TYPE_UINT)
      then pointer_of_bits (store32 before z)
      else pointer_of_bits z
  | v_double bits => pointer_of_bits bits
  end.

(** What the variable [resource], which held [before], holds after
    [g_object_get (object, name, &resource, NULL)] on the instance [o]. *)
Definition stored_pointer (before : Z) (o : GstdObject) (nm : string)
  : pointer :=
  match g_object_class_find_property (g_class o) nm with
  | Some pspec => lcopy before (value_type pspec) (property_value o nm)
  | None => pointer_of_bits before
  end.

(** [g_object_get (object, name, &resource, NULL)]: calls the getter of the
    instance and stores its answer at the address of [resource]. *)
Definition g_object_get (before : Z) (object : addr) (nm : string)
  : M pointer :=
  o <- deref object ;;
  emit (EvGetProperty object nm) ;;
  ret (stored_pointer before o nm).

(** Which classes derive from [GstdObject]. *)
Definition is_gstd_type (t : GstdType) : bool :=
  match t with
  | G_TYPE_FOREIGN_OBJECT => false
  | _ => true
  end.

(** [GSTD_IS_OBJECT (resource)]: the instance type check of GObject, on
    what the variable holds.  It is [FALSE] for [NULL] without a dereference;
    otherwise it reads the class through the pointer: for the address of an
    instance it answers by the class, and for any other bits it dereferences
    what is no instance. *)
Definition GSTD_IS_OBJECT (resource : pointer) : M bool :=
  match resource with
  | p_null => ret false
  | p_instance a => o <- deref a ;; ret (is_gstd_type (g_type (g_class o)))
  | p_wild => raise NotAnInstance
  end.

(** The value of the C variable [resource] as a [GstdObject *]. *)
Definition as_pointer (resource : pointer) : option addr :=
  match resource with
  | p_instance a => Some a
  | _ => None
  end.

(** [g_return_val_if_fail (expr, NULL)] when [expr] is false. *)
Definition g_return_if_fail_warning (func expr : string) : M unit :=
  emit (EvCritical func expr).

Definition GST_ERROR_OBJECT (obj : option addr) (msg : string) : M unit :=
  emit (EvError obj msg).

Section Reader.

(** Modelled from the spec: [GSTD_PARAM_IS_READ] is a macro of
    [gstd_object.h], which is not among the sources.  The spec calls it a
    custom resource-readable flag among the descriptor's access flags, so
    it is the test of one flag mask, [GSTD_PARAM_READ], whose value is left
    open. *)
Variable GSTD_PARAM_READ : Z.

Definition GSTD_PARAM_IS_READ (p : Z) : Z := Z.land p GSTD_PARAM_READ.

(** The properties installed on each class by its own [class_init]
    ([gstd_property_int.c] and the like, not among the sources). *)
Variable class_properties : GstdType -> list GParamSpec.

(** What the local variable [resource] of the reader holds before
    [g_object_get] writes to it: the declaration gives it no value. *)
Variable indeterminate : Z.

(** The instance [g_object_new (type, "name", nm, "target", target, NULL)]
    builds: of class [type], with the two construction properties set. *)
Definition new_instance (type : GstdType) (nm : string) (target : addr)
  : GstdObject :=
  mk_object (mk_class type (class_properties type)) nm
    [("name"%string, v_string (Some nm));
     ("target"%string, v_object (Some target))].

(** [g_object_new]: the new instance is placed at an address not in use. *)
Definition g_object_new (type : GstdType) (nm : string) (target : addr)
  : M addr :=
  fun s =>
    let a := fresh (dom (heap s)) in
    Ret a (mk_state (<[a := new_instance type nm target]> (heap s))
             (events s)).

(** ** [gstd_property_mask_type] *)
Definition gstd_property_mask_type (object : option addr)
    (name : option string) : M (option addr) :=
  match object with
  | None =>
      g_return_if_fail_warning "gstd_property_mask_type" "object" ;;
      ret None
  | Some obj =>
    match name with
    | None =>
        g_return_if_fail_warning "gstd_property_mask_type" "name" ;;
        ret None
    | Some nm =>
        klass <- G_OBJECT_GET_CLASS obj ;;
        match g_object_class_find_property klass nm with
        | None => raise NullParamSpec
        | Some pspec =>
            let t := value_type pspec in
            if t =? G_TYPE_BOOLEAN then
              boolean_val <- g_object_new GSTD_TYPE_PROPERTY_BOOLEAN
                               (pspec_name pspec) obj ;;
              ret (Some boolean_val)
            else if (t =? G_TYPE_INT) || (t =? G_TYPE_UINT)
                    || (t =? G_TYPE_UINT64) || (t =? G_TYPE_INT64) then
              int_val <- g_object_new GSTD_TYPE_PROPERTY_INT
                           (pspec_name pspec) obj ;;
              ret (Some int_val)
            else if t =? G_TYPE_STRING then
              string_val <- g_object_new GSTD_TYPE_PROPERTY_INT
                              (pspec_name pspec) obj ;;
              ret (Some string_val)
            else
              GST_ERROR_OBJECT (Some obj) (nm +:+ " is not a valid resource") ;;
              ret None
        end
    end
  end.

(** ** [gstd_property_reader_read] *)
Definition gstd_property_reader_read (iface object : option addr)
    (name : option string) : M (option addr) :=
  match iface with
  | None =>
      g_return_if_fail_warning "gstd_property_reader_read" "iface" ;;
      ret None
  | Some _ =>
    match object with
    | None =>
        g_return_if_fail_warning "gstd_property_reader_read" "object" ;;
        ret None
    | Some obj =>
      match name with
      | None =>
          g_return_if_fail_warning "gstd_property_reader_read" "name" ;;
          ret None
      | Some nm =>
          klass <- G_OBJECT_GET_CLASS obj ;;
          match g_object_class_find_property klass nm with
          | None =>
              (* No such property in the object *)
              oname <- GSTD_OBJECT_NAME obj ;;
              GST_ERROR_OBJECT iface
                ("No " +:+ nm +:+ " resource in " +:+ oname) ;;
              ret None
          | Some pspec =>
              (* Property is not readable *)
              if (GSTD_PARAM_IS_READ (flags pspec) =? 0)
                 || (Z.land (flags pspec) G_PARAM_READABLE =? 0) then
                GST_ERROR_OBJECT iface
                  ("The resource " +:+ nm +:+ " is not readable") ;;
                ret None
              else
                resource <- g_object_get indeterminate obj nm ;;
                (* We only support gstd objects *)
                is_object <- GSTD_IS_OBJECT resource ;;
                if negb is_object then
                  gstd_property_mask_type object name
                else
                  ret (as_pointer resource)
          end
      end
    end
  end.

End Reader.

(** ** Vocabulary of the statements *)

(** The text [part] occurs in the text [whole]. *)
Definition includes (part whole : string) : Prop :=
  exists pre post : string, whole = pre +:+ part +:+ post.



(** The state after [g_object_new] placed [o]. *)
Definition allocated (o : GstdObject) (s : state) : state :=
  mk_state (<[fresh (dom (heap s)) := o]> (heap s)) (events s).

(** The state after one more log record. *)
Definition logged (e : event) (s : state) : state :=
  mk_state (heap s) (events s ++ [e]).

(** The getter calls recorded in a log, in order. *)
Definition getter_calls (tr : list event) : list (addr * string) :=
  omap (fun e => match e with
                 | EvGetProperty a p => Some (a, p)
                 | _ => None
                 end) tr.

(** The value types the dispatcher has a case for. *)
Definition integer_types : list GType :=
  [G_TYPE_INT; G_TYPE_UINT; G_TYPE_UINT64; G_TYPE_INT64].

Definition masked_types : list GType :=
  G_TYPE_BOOLEAN :: G_TYPE_STRING :: integer_types.

(** ** A concrete element

    The element [e1] of the scenarios: a boolean [mute], a 64-bit integer
    [latency-ns], a string [name], a floating point [volume], an integer
    [hidden] readable for GObject but not flagged readable as a resource, and
    an object property [sink] holding the resource [fakesink0]. *)
Module Scenario.

Definition GSTD_PARAM_READ : Z := Z.shiftl 1 9.

Definition readable_flags : Z := Z.lor G_PARAM_READABLE GSTD_PARAM_READ.

Definition no_properties (_ : GstdType) : list GParamSpec := [].

(** What the stack slot of [resource] happens to hold before the call. *)
Definition stack_slot : Z := 140726188186688.

(** The 64 bits of the double 1.0. *)
Definition double_one : Z := 4607182418800017408.

Definition e1_class : GObjectClass :=
  mk_class GSTD_TYPE_ELEMENT
    [mk_pspec "mute" readable_flags G_TYPE_BOOLEAN;
     mk_pspec "latency-ns" readable_flags G_TYPE_INT64;
     mk_pspec "name" readable_flags G_TYPE_STRING;
     mk_pspec "volume" readable_flags G_TYPE_DOUBLE;
     mk_pspec "hidden" G_PARAM_READABLE G_TYPE_INT;
     mk_pspec "sink" readable_flags G_TYPE_OBJECT].

Definition e1 : GstdObject :=
  mk_object e1_class "e1"
    [("mute"%string, v_boolean false);
     ("latency-ns"%string, v_int 1200);
     ("name"%string, v_string (Some "src0"%string));
     ("volume"%string, v_double double_one);
     ("hidden"%string, v_int 3);
     ("sink"%string, v_object (Some 2%positive))].

Definition fakesink0 : GstdObject :=
  mk_object (mk_class GSTD_TYPE_ELEMENT []) "fakesink0" [].

Definition objects : gmap addr GstdObject :=
  <[1%positive := e1]> (<[2%positive := fakesink0]> ∅).

Definition s0 : state := mk_state objects [].

Definition reader : option addr := Some 9%positive.

Definition read (nm : string) : result (option addr) :=
  gstd_property_reader_read GSTD_PARAM_READ no_properties stack_slot
    reader (Some 1%positive) (Some nm) s0.

End Scenario.

(** ** A second element

    The element [cam0] has a readable string property, [device-name], and a
    readable object property, [peer]; both hold [NULL]. *)
Module Camera.

Definition cam0_class : GObjectClass :=
  mk_class GSTD_TYPE_ELEMENT
    [mk_pspec "device-name" Scenario.readable_flags G_TYPE_STRING;
     mk_pspec "peer" Scenario.readable_flags G_TYPE_OBJECT].

Definition cam0 : GstdObject :=
  mk_object cam0_class "cam0"
    [("device-name"%string, v_string None);
     ("peer"%string, v_object None)].

Definition objects : gmap addr GstdObject := <[1%positive := cam0]> ∅.

Definition s0 : state := mk_state objects [].

Definition read (nm : string) : result (option addr) :=
  gstd_property_reader_read Scenario.GSTD_PARAM_READ Scenario.no_properties
    Scenario.stack_slot Scenario.reader (Some 1%positive) (Some nm) s0.

End Camera.

(** ** Lemmas on the run time *)



Lemma lcopy_instance (before : Z) (t : GType) (v : GValue) (a : addr) :
  lcopy before t v = p_instance a -> v = v_object (Some a).
Proof.
  unfold lcopy, pointer_of_bits.
  destruct v as [b|z|[str|]|[p|]|bits]; repeat case_match; congruence.
Qed.

Lemma stored_pointer_found (before : Z) (o : GstdObject) (nm : string)
    (pspec : GParamSpec) :
  g_object_class_find_property (g_class o) nm = Some pspec ->
  stored_pointer before o nm
  = lcopy before (value_type pspec) (property_value o nm).
Proof. unfold stored_pointer. by intros ->. Qed.

Lemma append_cons (x : Ascii.ascii) (a b : string) :
  String x a +:+ b = String x (a +:+ b).
Proof. reflexivity. Qed.

Lemma append_empty_r (a : string) : a +:+ "" = a.
Proof.
  induction a as [|x a IH]; [reflexivity |].
  by rewrite append_cons, IH.
Qed.

Lemma append_assoc (a b c : string) : (a +:+ b) +:+ c = a +:+ b +:+ c.
Proof.
  induction a as [|x a IH]; [reflexivity |].
  by rewrite !append_cons, IH.
Qed.

Lemma includes_suffix (pre part : string) : includes part (pre +:+ part).
Proof. exists pre, ""%string. by rewrite append_empty_r. Qed.

Lemma includes_prefix (part post : string) : includes part (part +:+ post).
Proof. by exists ""%string, post. Qed.

Lemma includes_middle (pre part post : string) :
  includes part (pre +:+ part +:+ post).
Proof. by exists pre, post. Qed.

Lemma fresh_heap_None (h : gmap addr GstdObject) : h !! fresh (dom h) = None.
Proof. apply not_elem_of_dom, is_fresh. Qed.

Lemma insert_fresh_ne (h : gmap addr GstdObject) (o : GstdObject) :
  <[fresh (dom h) := o]> h <> h.
Proof.
  intros E.
  assert (<[fresh (dom h) := o]> h !! fresh (dom h) = Some o) as F
    by apply lookup_insert_eq.
  rewrite E, fresh_heap_None in F. discriminate.
Qed.

Lemma insert_fresh_frame (h : gmap addr GstdObject) (o x : GstdObject) (a : addr) :
  h !! a = Some x -> <[fresh (dom h) := o]> h !! a = Some x.
Proof.
  intros H. rewrite lookup_insert_ne; [done |].
  intros E. rewrite <- E, fresh_heap_None in H. discriminate.
Qed.

Lemma state_events_ne (h : gmap addr GstdObject) (tr : list event) (e : event) :
  mk_state h (tr ++ [e]) <> mk_state h tr.
Proof.
  intros E. injection E as E. apply (f_equal length) in E.
  rewrite length_app in E. simpl in E. lia.
Qed.

Lemma logged_ne (e : event) (s : state) : logged e s <> s.
Proof. destruct s as [h tr]. apply state_events_ne. Qed.

Lemma allocated_ne (o : GstdObject) (s : state) : allocated o s <> s.
Proof.
  destruct s as [h tr]. unfold allocated. simpl. intros [= E].
  by apply insert_fresh_ne in E.
Qed.

Lemma getter_calls_app (tr1 tr2 : list event) :
  getter_calls (tr1 ++ tr2) = getter_calls tr1 ++ getter_calls tr2.
Proof. apply omap_app. Qed.

(** ** Lemmas on the two functions *)

Arguments gstd_property_mask_type : simpl never.
Arguments gstd_property_reader_read : simpl never.

Ltac run :=
  unfold g_object_get, G_OBJECT_GET_CLASS, GSTD_OBJECT_NAME, GST_ERROR_OBJECT,
    g_return_if_fail_warning, g_object_new, bind, ret, raise, emit, deref;
  simpl.

Section Properties.

Variable GSTD_PARAM_READ : Z.
Variable class_properties : GstdType -> list GParamSpec.
Variable indeterminate : Z.

Local Abbreviation read :=
  (gstd_property_reader_read GSTD_PARAM_READ class_properties indeterminate).
Local Abbreviation mask := (gstd_property_mask_type class_properties).
Local Abbreviation new_object := (new_instance class_properties).
Local Abbreviation IS_READ := (GSTD_PARAM_IS_READ GSTD_PARAM_READ).

(** The dispatcher on a live object whose class has the descriptor: the
    [switch] on the value type. *)
Lemma mask_type_found (s : state) (obj : addr) (o : GstdObject) (nm : string)
    (pspec : GParamSpec) :
  heap s !! obj = Some o ->
  g_object_class_find_property (g_class o) nm = Some pspec ->
  mask (Some obj) (Some nm) s =
    let t := value_type pspec in
    if t =? G_TYPE_BOOLEAN then
      Ret (Some (fresh (dom (heap s))))
        (allocated (new_object GSTD_TYPE_PROPERTY_BOOLEAN (pspec_name pspec) obj) s)
    else if (t =? G_TYPE_INT) || (t =? G_TYPE_UINT)
            || (t =? G_TYPE_UINT64) || (t =? G_TYPE_INT64) then
      Ret (Some (fresh (dom (heap s))))
        (allocated (new_object GSTD_TYPE_PROPERTY_INT (pspec_name pspec) obj) s)
    else if t =? G_TYPE_STRING then
      Ret (Some (fresh (dom (heap s))))
        (allocated (new_object GSTD_TYPE_PROPERTY_INT (pspec_name pspec) obj) s)
    else
      Ret None (logged (EvError (Some obj) (nm +:+ " is not a valid resource")) s).
Proof.
  intros Hobj Hfind. unfold gstd_property_mask_type. run.
  rewrite Hobj. simpl. rewrite Hfind. simpl.
  repeat case_match; reflexivity.
Qed.

(** The dispatcher dereferences the descriptor it looked up: without a
    descriptor of that name it stops on the null pointer. *)
Lemma mask_type_not_found (s : state) (obj : addr) (o : GstdObject) (nm : string) :
  heap s !! obj = Some o ->
  g_object_class_find_property (g_class o) nm = None ->
  mask (Some obj) (Some nm) s = Fault NullParamSpec.
Proof.
  intros Hobj Hfind. unfold gstd_property_mask_type. run.
  rewrite Hobj. simpl. by rewrite Hfind.
Qed.

(** Every run of the dispatcher that returns leaves a trace: a new object or
    a log record. *)
Lemma mask_type_changes_state (s s' : state) (object : option addr)
    (name : option string) (r : option addr) :
  mask object name s = Ret r s' -> s' <> s.
Proof.
  destruct object as [obj|];
    [| unfold gstd_property_mask_type; run; intros [= _ <-];
       apply (logged_ne _ s)].
  destruct name as [nm|];
    [| unfold gstd_property_mask_type; run; intros [= _ <-];
       apply (logged_ne _ s)].
  destruct (heap s !! obj) as [o|] eqn:Hobj.
  - destruct (g_object_class_find_property (g_class o) nm) as [pspec|] eqn:Hfind.
    + rewrite (mask_type_found s obj o nm pspec Hobj Hfind). simpl.
      repeat case_match; intros [= _ <-];
        first [ apply logged_ne | apply allocated_ne ].
    + by rewrite (mask_type_not_found s obj o nm Hobj Hfind).
  - unfold gstd_property_mask_type. run. by rewrite Hobj.
Qed.

(** The reader on a live object, for a descriptor that passes both
    permission checks: the getter is called, then the instance check is run
    on what the variable holds. *)
Lemma read_readable (s : state) (i obj : addr) (o : GstdObject) (nm : string)
    (pspec : GParamSpec) :
  heap s !! obj = Some o ->
  g_object_class_find_property (g_class o) nm = Some pspec ->
  IS_READ (flags pspec) <> 0 ->
  Z.land (flags pspec) G_PARAM_READABLE <> 0 ->
  read (Some i) (Some obj) (Some nm) s =
    let s1 := logged (EvGetProperty obj nm) s in
    match stored_pointer indeterminate o nm with
    | p_null => mask (Some obj) (Some nm) s1
    | p_instance a =>
        match heap s !! a with
        | Some r =>
            if is_gstd_type (g_type (g_class r)) then Ret (Some a) s1
            else mask (Some obj) (Some nm) s1
        | None => Fault (InvalidInstance a)
        end
    | p_wild => Fault NotAnInstance
    end.
Proof.
  intros Hobj Hfind Hr1 Hr2. unfold gstd_property_reader_read. run.
  rewrite Hobj. simpl. rewrite Hfind.
  apply Z.eqb_neq in Hr1, Hr2. rewrite Hr1, Hr2. simpl.
  rewrite Hobj. simpl. unfold logged.
  destruct (stored_pointer indeterminate o nm) as [|a|]; simpl;
    try reflexivity.
  unfold bind, ret, deref. simpl.
  destruct (heap s !! a) as [r|]; simpl; [| reflexivity].
  by destruct (is_gstd_type (g_type (g_class r))).
Qed.

(** The dispatcher on a string property: the instance it builds is of class
    [GSTD_TYPE_PROPERTY_INT]. *)
Lemma mask_type_string (s : state) (obj : addr) (o : GstdObject) (nm : string)
    (pspec : GParamSpec) :
  heap s !! obj = Some o ->
  g_object_class_find_property (g_class o) nm = Some pspec ->
  value_type pspec = G_TYPE_STRING ->
  mask (Some obj) (Some nm) s =
    Ret (Some (fresh (dom (heap s))))
      (allocated (new_object GSTD_TYPE_PROPERTY_INT (pspec_name pspec) obj) s).
Proof.
  intros Hobj Hfind Ht.
  rewrite (mask_type_found s obj o nm pspec Hobj Hfind). simpl.
  by rewrite Ht.
Qed.

(** When both permission checks pass and the run returns, the getter was
    called exactly once, on the object and the property asked for. *)
Lemma read_readable_calls_getter (s s' : state) (i obj : addr) (o : GstdObject)
    (nm : string) (pspec : GParamSpec) (r : option addr) :
  heap s !! obj = Some o ->
  g_object_class_find_property (g_class o) nm = Some pspec ->
  IS_READ (flags pspec) <> 0 ->
  Z.land (flags pspec) G_PARAM_READABLE <> 0 ->
  read (Some i) (Some obj) (Some nm) s = Ret r s' ->
  getter_calls (events s') = getter_calls (events s) ++ [(obj, nm)].
Proof.
  intros Hobj Hfind Hr1 Hr2.
  rewrite (read_readable s i obj o nm pspec Hobj Hfind Hr1 Hr2). simpl.
  assert (forall r s', mask (Some obj) (Some nm) (logged (EvGetProperty obj nm) s)
                       = Ret r s' ->
            getter_calls (events s') = getter_calls (events s) ++ [(obj, nm)])
    as Hmask.
  { intros r0 s0.
    rewrite (mask_type_found (logged (EvGetProperty obj nm) s) obj o nm pspec
               Hobj Hfind). simpl.
    repeat case_match; intros [= _ <-]; simpl;
      rewrite ?getter_calls_app; simpl; by rewrite ?app_nil_r. }
  destruct (stored_pointer indeterminate o nm) as [|a|];
    [apply Hmask | | discriminate].
  destruct (heap s !! a) as [x|]; [| discriminate].
  destruct (is_gstd_type (g_type (g_class x))); [| apply Hmask].
  intros [= _ <-]. simpl. by rewrite getter_calls_app.
Qed.

(** ** The claims *)

(** C2.  A property whose read permission is denied, by the resource-layer
    flag ([GSTD_PARAM_IS_READ]), by the native flag ([G_PARAM_READABLE]) or by
    both, makes [gstd_property_reader_read] return [NULL] after the one log
    record "The resource <name> is not readable"; the heap is the one before
    the call, so no typed property was built. *)
Theorem read_not_readable (s : state) (i obj : addr) (o : GstdObject)
    (nm : string) (pspec : GParamSpec) :
  heap s !! obj = Some o ->
  g_object_class_find_property (g_class o) nm = Some pspec ->
  IS_READ (flags pspec) = 0 \/ Z.land (flags pspec) G_PARAM_READABLE = 0 ->
  read (Some i) (Some obj) (Some nm) s =
    Ret None
      (logged (EvError (Some i) ("The resource " +:+ nm +:+ " is not readable")) s).
Proof.
  intros Hobj Hfind Hdenied. unfold gstd_property_reader_read. run.
  rewrite Hobj. simpl. rewrite Hfind.
  assert ((IS_READ (flags pspec) =? 0)
          || (Z.land (flags pspec) G_PARAM_READABLE =? 0) = true) as ->.
  { apply orb_true_iff. destruct Hdenied as [H|H]; [left | right];
      by apply Z.eqb_eq. }
  reflexivity.
Qed.

(** C3.  A name that is not among the properties of the object's class makes
    [gstd_property_reader_read] return [NULL] after the one log record
    "No <name> resource in <object name>", a text that includes the name of
    the resource. *)
Theorem read_no_such_resource (s : state) (i obj : addr) (o : GstdObject)
    (nm : string) :
  heap s !! obj = Some o ->
  g_object_class_find_property (g_class o) nm = None ->
  read (Some i) (Some obj) (Some nm) s =
    Ret None
      (logged (EvError (Some i) ("No " +:+ nm +:+ " resource in " +:+ name o)) s)
  /\ includes (name o) ("No " +:+ nm +:+ " resource in " +:+ name o).
Proof.
  intros Hobj Hfind. split.
  - unfold gstd_property_reader_read. run.
    rewrite Hobj. simpl. rewrite Hfind. simpl. by rewrite Hobj.
  - rewrite <- !append_assoc. apply includes_suffix.
Qed.

(** C8.  When the reader interface, the object or the name is [NULL],
    [gstd_property_reader_read] returns [NULL] after one critical warning of
    [g_return_val_if_fail]; the heap is untouched and neither the class nor
    the getter of the object is reached. *)
Theorem read_null_argument (s : state) (iface object : option addr)
    (name : option string) :
  iface = None \/ object = None \/ name = None ->
  exists expr : string,
    read iface object name s =
      Ret None (logged (EvCritical "gstd_property_reader_read" expr) s).
Proof.
  intros H. unfold gstd_property_reader_read. run.
  destruct iface as [i|]; [| by eexists].
  destruct object as [obj|]; [| by eexists].
  destruct name as [nm|]; [| by eexists].
  by destruct H as [H|[H|H]].
Qed.

(** C9.  When the descriptor is missing or one of the two permission checks
    fails, [gstd_property_reader_read] returns [NULL] and the getter calls
    recorded in the log are those recorded before the call: the value of the
    property is never fetched. *)
Theorem read_failure_skips_getter (s : state) (i obj : addr) (o : GstdObject)
    (nm : string) :
  heap s !! obj = Some o ->
  g_object_class_find_property (g_class o) nm = None
  \/ (exists pspec : GParamSpec,
        g_object_class_find_property (g_class o) nm = Some pspec
        /\ (IS_READ (flags pspec) = 0
            \/ Z.land (flags pspec) G_PARAM_READABLE = 0)) ->
  exists s' : state,
    read (Some i) (Some obj) (Some nm) s = Ret None s'
    /\ heap s' = heap s
    /\ getter_calls (events s') = getter_calls (events s).
Proof.
  intros Hobj Hfail. unfold gstd_property_reader_read. run.
  rewrite Hobj. simpl.
  destruct Hfail as [-> | (pspec & -> & Hdenied)].
  - simpl. rewrite Hobj. simpl. eexists. split; [reflexivity |].
    split; [reflexivity |]. simpl. rewrite getter_calls_app. apply app_nil_r.
  - destruct ((IS_READ (flags pspec) =? 0)
              || (Z.land (flags pspec) G_PARAM_READABLE =? 0)) eqn:Hchecks.
    + eexists. split; [reflexivity |]. split; [reflexivity |].
      simpl. rewrite getter_calls_app. apply app_nil_r.
    + apply orb_false_iff in Hchecks as [H1 H2].
      apply Z.eqb_neq in H1, H2. by destruct Hdenied.
Qed.

(** C5.  When both permission checks pass and the fetched value is a live
    [GstdObject], [gstd_property_reader_read] returns that very pointer.  The
    only change of state is the record of the getter call: the heap is the
    one before the call, so nothing was built, and the dispatcher did not
    run, since every returning run of it would have changed the state
    further. *)
Theorem read_returns_resource (s : state) (i obj a : addr) (o r : GstdObject)
    (nm : string) (pspec : GParamSpec) :
  heap s !! obj = Some o ->
  g_object_class_find_property (g_class o) nm = Some pspec ->
  IS_READ (flags pspec) <> 0 ->
  Z.land (flags pspec) G_PARAM_READABLE <> 0 ->
  property_value o nm = v_object (Some a) ->
  heap s !! a = Some r ->
  is_gstd_type (g_type (g_class r)) = true ->
  read (Some i) (Some obj) (Some nm) s =
    Ret (Some a) (logged (EvGetProperty obj nm) s)
  /\ (forall (res : option addr) (s' : state),
        mask (Some obj) (Some nm) (logged (EvGetProperty obj nm) s) = Ret res s' ->
        s' <> logged (EvGetProperty obj nm) s).
Proof.
  intros Hobj Hfind Hr1 Hr2 Hval Ha Hr. split.
  - rewrite (read_readable s i obj o nm pspec Hobj Hfind Hr1 Hr2). simpl.
    rewrite (stored_pointer_found _ o nm pspec Hfind), Hval. simpl.
    by rewrite Ha, Hr.
  - intros res s'. apply mask_type_changes_state.
Qed.

(** C6.  For a property whose value type is [G_TYPE_INT], [G_TYPE_UINT],
    [G_TYPE_INT64] or [G_TYPE_UINT64], [gstd_property_mask_type] returns a new
    instance of the one class [GSTD_TYPE_PROPERTY_INT], named after the
    descriptor and with the object as target, at an address that was free. *)
Theorem mask_type_integer (s : state) (obj : addr) (o : GstdObject)
    (nm : string) (pspec : GParamSpec) :
  heap s !! obj = Some o ->
  g_object_class_find_property (g_class o) nm = Some pspec ->
  value_type pspec ∈ integer_types ->
  exists a : addr,
    mask (Some obj) (Some nm) s =
      Ret (Some a)
        (mk_state
           (<[a := new_object GSTD_TYPE_PROPERTY_INT (pspec_name pspec) obj]>
              (heap s))
           (events s))
    /\ heap s !! a = None
    /\ g_type (g_class (new_object GSTD_TYPE_PROPERTY_INT (pspec_name pspec) obj))
       = GSTD_TYPE_PROPERTY_INT.
Proof.
  intros Hobj Hfind Ht. exists (fresh (dom (heap s))).
  split; [| split; [apply fresh_heap_None | reflexivity]].
  rewrite (mask_type_found s obj o nm pspec Hobj Hfind). simpl.
  unfold integer_types in Ht.
  repeat (apply elem_of_cons in Ht as [-> | Ht]); try reflexivity.
  by apply elem_of_nil in Ht.
Qed.


(** C10.  [gstd_property_mask_type] dereferences the descriptor it looks up
    without a check ([mask_type_not_found]: on its own it stops on the null
    pointer when the name is not a property).  [gstd_property_reader_read]
    calls it only after its own lookup of the same name on the same object
    succeeded, and nothing in between changes the class, so no call of the
    reader, whatever its arguments and state, stops on that null pointer. *)
Theorem read_never_null_descriptor (s : state) (iface object : option addr)
    (name : option string) :
  read iface object name s <> Fault NullParamSpec.
Proof.
  destruct iface as [i|];
    [| unfold gstd_property_reader_read; run; discriminate].
  destruct object as [obj|];
    [| unfold gstd_property_reader_read; run; discriminate].
  destruct name as [nm|];
    [| unfold gstd_property_reader_read; run; discriminate].
  destruct (heap s !! obj) as [o|] eqn:Hobj;
    [| unfold gstd_property_reader_read; run; rewrite Hobj; discriminate].
  destruct (g_object_class_find_property (g_class o) nm) as [pspec|] eqn:Hfind;
    [| unfold gstd_property_reader_read; run;
       rewrite Hobj; simpl; rewrite Hfind; simpl; rewrite Hobj; discriminate].
  destruct (Z.eq_dec (IS_READ (flags pspec)) 0) as [H1|H1];
    [unfold gstd_property_reader_read; run;
     rewrite Hobj; simpl; rewrite Hfind, H1; discriminate |].
  destruct (Z.eq_dec (Z.land (flags pspec) G_PARAM_READABLE) 0) as [H2|H2];
    [unfold gstd_property_reader_read; run;
     rewrite Hobj; simpl; rewrite Hfind, H2, orb_true_r; discriminate |].
  rewrite (read_readable s i obj o nm pspec Hobj Hfind H1 H2). simpl.
  assert (mask (Some obj) (Some nm) (logged (EvGetProperty obj nm) s)
          <> Fault NullParamSpec) as Hmask.
  { rewrite (mask_type_found (logged (EvGetProperty obj nm) s) obj o nm pspec
               Hobj Hfind). simpl.
    repeat case_match; discriminate. }
  destruct (stored_pointer indeterminate o nm) as [|p|];
    [exact Hmask | | discriminate].
  destruct (heap s !! p) as [x|]; [| discriminate].
  destruct (is_gstd_type (g_type (g_class x))); [discriminate | exact Hmask].
Qed.

End Properties.

(** ** The claims on the element [e1] *)

Section OnScenario.

Import Scenario.

Local Abbreviation e1_read :=
  (gstd_property_reader_read GSTD_PARAM_READ no_properties stack_slot).
Local Abbreviation e1_mask :=
  (gstd_property_mask_type no_properties).

(** C1.  The string case of the dispatcher passes the integer type to
    [g_object_new].  The string property [device-name] of [cam0] is readable
    and holds [NULL]: what [gstd_property_reader_read] returns for it is an
    instance of class [GSTD_TYPE_PROPERTY_INT], the integer variant, and not
    of [GSTD_TYPE_PROPERTY_STRING].  The dispatcher called on the string
    property [name] of [e1] builds an instance of the integer class as
    well. *)
Theorem string_property_gets_integer_variant :
  g_object_class_find_property Camera.cam0_class "device-name"
    = Some (mk_pspec "device-name" readable_flags G_TYPE_STRING)
  /\ Camera.read "device-name" =
       Ret (Some 2%positive)
         (mk_state
            (<[2%positive :=
                 new_instance no_properties GSTD_TYPE_PROPERTY_INT "device-name"
                   1%positive]> Camera.objects)
            [EvGetProperty 1%positive "device-name"])
  /\ g_object_class_find_property e1_class "name"
     = Some (mk_pspec "name" readable_flags G_TYPE_STRING)
  /\ e1_mask (Some 1%positive) (Some "name"%string) s0 =
       Ret (Some 3%positive)
         (mk_state
            (<[3%positive :=
                 new_instance no_properties GSTD_TYPE_PROPERTY_INT "name"
                   1%positive]> objects)
            [])
  /\ GSTD_TYPE_PROPERTY_INT <> GSTD_TYPE_PROPERTY_STRING.
Proof.
  split; [reflexivity |]. split; [vm_compute; reflexivity |].
  split; [reflexivity |]. split; [vm_compute; reflexivity | discriminate].
Qed.

Lemma read_not_readable_witness :
  read "hidden" =
    Ret None
      (logged (EvError reader "The resource hidden is not readable") s0).
Proof.
  apply (read_not_readable GSTD_PARAM_READ no_properties stack_slot s0
           9%positive 1%positive e1 "hidden"
           (mk_pspec "hidden" G_PARAM_READABLE G_TYPE_INT)).
  - reflexivity.
  - reflexivity.
  - left. reflexivity.
Defined.

Lemma read_no_such_resource_witness :
  read "volume-db" =
    Ret None (logged (EvError reader "No volume-db resource in e1") s0)
  /\ includes "e1" "No volume-db resource in e1".
Proof.
  apply (read_no_such_resource GSTD_PARAM_READ no_properties stack_slot s0
           9%positive 1%positive e1 "volume-db").
  - reflexivity.
  - reflexivity.
Defined.

Lemma read_null_argument_witness :
  exists expr : string,
    e1_read reader None (Some "mute"%string) s0 =
      Ret None (logged (EvCritical "gstd_property_reader_read" expr) s0).
Proof.
  apply (read_null_argument GSTD_PARAM_READ no_properties stack_slot s0 reader
           None (Some "mute"%string)).
  right. left. reflexivity.
Defined.

Lemma read_failure_skips_getter_witness :
  exists s' : state,
    read "volume-db" = Ret None s'
    /\ heap s' = heap s0
    /\ getter_calls (events s') = getter_calls (events s0).
Proof.
  apply (read_failure_skips_getter GSTD_PARAM_READ no_properties stack_slot s0
           9%positive 1%positive e1 "volume-db").
  - reflexivity.
  - left. reflexivity.
Defined.

Lemma read_returns_resource_witness :
  read "sink" = Ret (Some 2%positive) (logged (EvGetProperty 1%positive "sink") s0)
  /\ (forall (res : option addr) (s' : state),
        e1_mask (Some 1%positive) (Some "sink"%string)
          (logged (EvGetProperty 1%positive "sink") s0) = Ret res s' ->
        s' <> logged (EvGetProperty 1%positive "sink") s0).
Proof.
  apply (read_returns_resource GSTD_PARAM_READ no_properties stack_slot s0
           9%positive 1%positive 2%positive e1 fakesink0 "sink"
           (mk_pspec "sink" readable_flags G_TYPE_OBJECT)).
  - reflexivity.
  - reflexivity.
  - discriminate.
  - discriminate.
  - reflexivity.
  - reflexivity.
  - reflexivity.
Defined.

Lemma mask_type_integer_witness :
  exists a : addr,
    e1_mask (Some 1%positive) (Some "latency-ns"%string) s0 =
      Ret (Some a)
        (mk_state
           (<[a := new_instance no_properties GSTD_TYPE_PROPERTY_INT "latency-ns"
                     1%positive]> (heap s0))
           (events s0))
    /\ heap s0 !! a = None
    /\ g_type (g_class (new_instance no_properties GSTD_TYPE_PROPERTY_INT
                          "latency-ns" 1%positive))
       = GSTD_TYPE_PROPERTY_INT.
Proof.
  apply (mask_type_integer no_properties s0 1%positive e1 "latency-ns"
           (mk_pspec "latency-ns" readable_flags G_TYPE_INT64)).
  - reflexivity.
  - reflexivity.
  - unfold integer_types. simpl. do 3 apply list_elem_of_further.
    apply list_elem_of_here.
Defined.

(** C4.  The property [volume] of [e1] is readable and of type double, which
    the dispatcher has no case for; it holds 1.0.  Reading it does not return
    [NULL] with a diagnostic: [g_object_get] stores the eight bytes of the
    double in the pointer variable [resource], and the instance check
    dereferences them, whatever the variable held before. *)
Theorem double_property_stops_reader :
  g_object_class_find_property e1_class "volume"
    = Some (mk_pspec "volume" readable_flags G_TYPE_DOUBLE)
  /\ GSTD_PARAM_IS_READ GSTD_PARAM_READ readable_flags <> 0
  /\ Z.land readable_flags G_PARAM_READABLE <> 0
  /\ (G_TYPE_DOUBLE ∉ masked_types)
  /\ property_value e1 "volume" = v_double double_one
  /\ (forall before : Z,
        gstd_property_reader_read GSTD_PARAM_READ no_properties before
          reader (Some 1%positive) (Some "volume"%string) s0
        = Fault NotAnInstance).
Proof.
  split; [reflexivity |]. split; [discriminate |]. split; [discriminate |].
  split.
  { intros H. unfold masked_types, integer_types in H.
    repeat (apply elem_of_cons in H as [H | H]; [discriminate |]).
    by apply elem_of_nil in H. }
  split; [reflexivity |].
  intros before. unfold reader.
  etransitivity.
  - apply (read_readable GSTD_PARAM_READ no_properties before s0 9%positive
             1%positive e1 "volume"
             (mk_pspec "volume" readable_flags G_TYPE_DOUBLE));
      [reflexivity | reflexivity | discriminate | discriminate].
  - reflexivity.
Qed.

(** A readable property of a type the dispatcher has no case for is read
    with success when it holds a resource: [sink], of type [G_TYPE_OBJECT],
    is returned as it is and no error is logged. *)
Lemma sink_property_is_supported :
  g_object_class_find_property e1_class "sink"
    = Some (mk_pspec "sink" readable_flags G_TYPE_OBJECT)
  /\ GSTD_PARAM_IS_READ GSTD_PARAM_READ readable_flags <> 0
  /\ Z.land readable_flags G_PARAM_READABLE <> 0
  /\ (G_TYPE_OBJECT ∉ masked_types)
  /\ read "sink" =
       Ret (Some 2%positive) (mk_state objects [EvGetProperty 1%positive "sink"])
  /\ read "sink" <>
       Ret None
         (mk_state objects
            [EvGetProperty 1%positive "sink";
             EvError (Some 1%positive) "sink is not a valid resource"]).
Proof.
  split; [reflexivity |]. split; [discriminate |]. split; [discriminate |].
  split.
  { intros H. unfold masked_types, integer_types in H.
    repeat (apply elem_of_cons in H as [H | H]; [discriminate |]).
    by apply elem_of_nil in H. }
  split; [vm_compute; reflexivity |].
  vm_compute. discriminate.
Qed.


(** The name of a new instance is the descriptor's, not the one asked for:
    [device_name] finds the property [device-name] of [cam0], and the
    instance returned is named [device-name]. *)
Lemma canonical_name_is_kept :
  Camera.read "device_name" =
    Ret (Some 2%positive)
      (mk_state
         (<[2%positive :=
              new_instance no_properties GSTD_TYPE_PROPERTY_INT "device-name"
                1%positive]> Camera.objects)
         [EvGetProperty 1%positive "device_name"])
  /\ "device-name"%string <> "device_name"%string.
Proof. split; [vm_compute; reflexivity | discriminate]. Qed.


End OnScenario.

(** ** Further properties of the reader and of the dispatcher *)

Section Further.

Variable GSTD_PARAM_READ : Z.
Variable class_properties : GstdType -> list GParamSpec.
Variable indeterminate : Z.

Local Abbreviation read :=
  (gstd_property_reader_read GSTD_PARAM_READ class_properties indeterminate).
Local Abbreviation mask := (gstd_property_mask_type class_properties).
Local Abbreviation new_object := (new_instance class_properties).
Local Abbreviation IS_READ := (GSTD_PARAM_IS_READ GSTD_PARAM_READ).

(** Four bytes stored over the low half show in the low half. *)
Lemma store32_low (before w : Z) :
  Z.land (store32 before w) (Z.ones 32) = Z.land w (Z.ones 32).
Proof.
  unfold store32.
  rewrite Z.land_lor_distr_l, <- !Z.land_assoc.
  replace (Z.land (Z.ones 32) (Z.ones 32)) with (Z.ones 32) by reflexivity.
  replace (Z.land (Z.shiftl (Z.ones 32) 32) (Z.ones 32)) with 0 by reflexivity.
  by rewrite Z.land_0_r, Z.lor_0_r.
Qed.

(** Bits that are not all zero in the low half are no [NULL] pointer. *)
Lemma pointer_of_bits_wild (w : Z) :
  Z.land w (Z.ones 32) <> 0 -> pointer_of_bits w = p_wild.
Proof.
  intros Hlow. unfold pointer_of_bits.
  destruct (Z.land w (Z.ones 64) =? 0) eqn:E; [| reflexivity].
  apply Z.eqb_eq in E. exfalso. apply Hlow.
  replace (Z.ones 32) with (Z.land (Z.ones 64) (Z.ones 32)) by reflexivity.
  by rewrite Z.land_assoc, E.
Qed.

(** How a run of the dispatcher that returns can end, on a live object whose
    class has the descriptor: a new instance of the boolean or of the integer
    class at the free address, or [NULL] after one error record. *)
Lemma mask_type_cases (s s' : state) (obj : addr) (o : GstdObject) (nm : string)
    (pspec : GParamSpec) (r : option addr) :
  heap s !! obj = Some o ->
  g_object_class_find_property (g_class o) nm = Some pspec ->
  mask (Some obj) (Some nm) s = Ret r s' ->
  (exists T : GstdType,
      (T = GSTD_TYPE_PROPERTY_BOOLEAN \/ T = GSTD_TYPE_PROPERTY_INT)
      /\ r = Some (fresh (dom (heap s)))
      /\ s' = allocated (new_object T (pspec_name pspec) obj) s)
  \/ (r = None
      /\ s' = logged (EvError (Some obj) (nm +:+ " is not a valid resource")) s).
Proof.
  intros Hobj Hfind.
  rewrite (mask_type_found _ s obj o nm pspec Hobj Hfind). simpl.
  repeat case_match; intros [= <- <-];
    first [ by right
          | left; eexists; split; [| split; reflexivity]; auto ].
Qed.

(** How a run of the reader that returns can end. *)
Lemma read_cases (s s' : state) (iface object : option addr)
    (prop : option string) (r : option addr) :
  read iface object prop s = Ret r s' ->
  (exists expr : string,
      r = None /\ s' = logged (EvCritical "gstd_property_reader_read" expr) s)
  \/ (exists msg : string, r = None /\ s' = logged (EvError iface msg) s)
  \/ (exists (obj : addr) (nm : string) (o : GstdObject),
        object = Some obj /\ prop = Some nm /\ heap s !! obj = Some o
        /\ ((exists (a : addr) (x : GstdObject),
                r = Some a /\ s' = logged (EvGetProperty obj nm) s
                /\ property_value o nm = v_object (Some a)
                /\ heap s !! a = Some x
                /\ is_gstd_type (g_type (g_class x)) = true)
            \/ (exists (T : GstdType) (pspec : GParamSpec),
                  (T = GSTD_TYPE_PROPERTY_BOOLEAN \/ T = GSTD_TYPE_PROPERTY_INT)
                  /\ r = Some (fresh (dom (heap s)))
                  /\ s' = allocated (new_object T (pspec_name pspec) obj)
                            (logged (EvGetProperty obj nm) s))
            \/ (r = None
                /\ s' = logged (EvError (Some obj)
                                  (nm +:+ " is not a valid resource"))
                          (logged (EvGetProperty obj nm) s)))).
Proof.
  destruct iface as [i|];
    [| unfold gstd_property_reader_read; run; intros [= <- <-];
       left; by eexists].
  destruct object as [obj|];
    [| unfold gstd_property_reader_read; run; intros [= <- <-];
       left; by eexists].
  destruct prop as [nm|];
    [| unfold gstd_property_reader_read; run; intros [= <- <-];
       left; by eexists].
  destruct (heap s !! obj) as [o|] eqn:Hobj;
    [| unfold gstd_property_reader_read; run; rewrite Hobj; discriminate].
  destruct (g_object_class_find_property (g_class o) nm) as [pspec|] eqn:Hfind;
    [| unfold gstd_property_reader_read; run;
       rewrite Hobj; simpl; rewrite Hfind; simpl; rewrite Hobj; simpl;
       intros [= <- <-]; right; left; by eexists].
  destruct (Z.eq_dec (IS_READ (flags pspec)) 0) as [H1|H1];
    [unfold gstd_property_reader_read; run;
     rewrite Hobj; simpl; rewrite Hfind, H1; simpl;
     intros [= <- <-]; right; left; by eexists |].
  destruct (Z.eq_dec (Z.land (flags pspec) G_PARAM_READABLE) 0) as [H2|H2];
    [unfold gstd_property_reader_read; run;
     rewrite Hobj; simpl; rewrite Hfind, H2, orb_true_r; simpl;
     intros [= <- <-]; right; left; by eexists |].
  rewrite (read_readable _ _ _ s i obj o nm pspec Hobj Hfind H1 H2). simpl.
  intros Hrun. right. right. exists obj, nm, o. do 3 (split; [done |]).
  assert (mask (Some obj) (Some nm) (logged (EvGetProperty obj nm) s) = Ret r s' ->
          (exists (T : GstdType) (pspec : GParamSpec),
              (T = GSTD_TYPE_PROPERTY_BOOLEAN \/ T = GSTD_TYPE_PROPERTY_INT)
              /\ r = Some (fresh (dom (heap s)))
              /\ s' = allocated (new_object T (pspec_name pspec) obj)
                        (logged (EvGetProperty obj nm) s))
          \/ (r = None
              /\ s' = logged (EvError (Some obj)
                                (nm +:+ " is not a valid resource"))
                        (logged (EvGetProperty obj nm) s))) as Hmask.
  { intros Hm.
    destruct (mask_type_cases (logged (EvGetProperty obj nm) s) s' obj o nm
                pspec r Hobj Hfind Hm) as [(T & HT & Hr & Hs) | H];
      [left; by exists T, pspec | by right]. }
  destruct (stored_pointer indeterminate o nm) as [|a|] eqn:Hptr;
    [right; by apply Hmask | | discriminate].
  destruct (heap s !! a) as [x|] eqn:Ha; [| discriminate].
  destruct (is_gstd_type (g_type (g_class x))) eqn:Hx;
    [| right; by apply Hmask].
  injection Hrun as <- <-. left. exists a, x. do 2 (split; [done |]).
  split; [| done].
  rewrite (stored_pointer_found _ o nm pspec Hfind) in Hptr.
  by apply lcopy_instance in Hptr.
Qed.


(** For a value type the dispatcher has a case for, the class of the instance
    it builds depends on that type only, whatever the state. *)
Lemma mask_type_masked (obj : addr) (o : GstdObject) (nm : string)
    (pspec : GParamSpec) :
  g_object_class_find_property (g_class o) nm = Some pspec ->
  value_type pspec ∈ masked_types ->
  exists T : GstdType,
    (T = GSTD_TYPE_PROPERTY_BOOLEAN \/ T = GSTD_TYPE_PROPERTY_INT)
    /\ forall s : state,
         heap s !! obj = Some o ->
         mask (Some obj) (Some nm) s =
           Ret (Some (fresh (dom (heap s))))
             (allocated (new_object T (pspec_name pspec) obj) s).
Proof.
  intros Hfind Ht. unfold masked_types, integer_types in Ht.
  repeat (apply elem_of_cons in Ht as [Ht | Ht]);
    try (by apply elem_of_nil in Ht);
    [exists GSTD_TYPE_PROPERTY_BOOLEAN; split; [by left |]
    | exists GSTD_TYPE_PROPERTY_INT; split; [by right |] ..];
    intros s Hobj;
    rewrite (mask_type_found _ s obj o nm pspec Hobj Hfind); simpl;
    rewrite Ht; reflexivity.
Qed.

(** X1.  For a boolean property the dispatcher returns a new instance of
    [GSTD_TYPE_PROPERTY_BOOLEAN], named after the descriptor found, with the
    object as target, at the address that was free; it logs nothing. *)
Theorem mask_type_boolean (s : state) (obj : addr) (o : GstdObject)
    (nm : string) (pspec : GParamSpec) :
  heap s !! obj = Some o ->
  g_object_class_find_property (g_class o) nm = Some pspec ->
  value_type pspec = G_TYPE_BOOLEAN ->
  mask (Some obj) (Some nm) s =
    Ret (Some (fresh (dom (heap s))))
      (mk_state
         (<[fresh (dom (heap s)) :=
              new_object GSTD_TYPE_PROPERTY_BOOLEAN (pspec_name pspec) obj]>
            (heap s))
         (events s)).
Proof.
  intros Hobj Hfind Ht.
  rewrite (mask_type_found _ s obj o nm pspec Hobj Hfind). simpl.
  by rewrite Ht.
Qed.

(** X4.  Called with a [NULL] object or a [NULL] name, the dispatcher returns
    [NULL] after one critical warning in its own name; the heap is untouched
    and no class is looked at. *)
Theorem mask_type_null_argument (s : state) (object : option addr)
    (prop : option string) :
  object = None \/ prop = None ->
  exists expr : string,
    mask object prop s =
      Ret None (logged (EvCritical "gstd_property_mask_type" expr) s).
Proof.
  intros H. unfold gstd_property_mask_type. run.
  destruct object as [obj|]; [| by eexists].
  destruct prop as [nm|]; [| by eexists].
  by destruct H.
Qed.

(** X6.  Whatever its arguments, a run of the dispatcher that returns leaves
    every object of the heap as it was, and records no getter call: the
    dispatcher decides on the descriptor alone and never fetches the
    value. *)
Theorem mask_type_frame (s s' : state) (object : option addr)
    (prop : option string) (r : option addr) :
  mask object prop s = Ret r s' ->
  (forall (b : addr) (x : GstdObject),
      heap s !! b = Some x -> heap s' !! b = Some x)
  /\ getter_calls (events s') = getter_calls (events s).
Proof.
  destruct object as [obj|];
    [| unfold gstd_property_mask_type; run; intros [= _ <-]; simpl;
       split; [done | rewrite getter_calls_app; apply app_nil_r]].
  destruct prop as [nm|];
    [| unfold gstd_property_mask_type; run; intros [= _ <-]; simpl;
       split; [done | rewrite getter_calls_app; apply app_nil_r]].
  destruct (heap s !! obj) as [o|] eqn:Hobj;
    [| unfold gstd_property_mask_type; run; rewrite Hobj; discriminate].
  destruct (g_object_class_find_property (g_class o) nm) as [pspec|] eqn:Hfind;
    [| by rewrite (mask_type_not_found _ s obj o nm Hobj Hfind)].
  intros Hrun.
  destruct (mask_type_cases s s' obj o nm pspec r Hobj Hfind Hrun)
    as [(T & _ & _ & ->) | (_ & ->)]; simpl.
  - split; [intros b x; apply insert_fresh_frame | reflexivity].
  - split; [done | rewrite getter_calls_app; apply app_nil_r].
Qed.

(** X7.  A call of the reader that returns [NULL] has built nothing: the heap
    is the one before the call. *)
Theorem read_failure_builds_nothing (s s' : state) (iface object : option addr)
    (prop : option string) :
  read iface object prop s = Ret None s' -> heap s' = heap s.
Proof.
  intros Hrun.
  destruct (read_cases s s' iface object prop None Hrun)
    as [(expr & _ & ->) | [(msg & _ & ->) | (obj & nm & o & _ & _ & _ & H)]];
    try reflexivity.
  destruct H as [(a & x & ? & _) | [(T & ps & _ & ? & _) | (_ & ->)]];
    try discriminate.
  reflexivity.
Qed.

(** X8.  No failure of the reader is silent: when it returns [NULL], the last
    record of the log is new and is an error record or a critical warning. *)
Theorem read_failure_is_diagnosed (s s' : state) (iface object : option addr)
    (prop : option string) :
  read iface object prop s = Ret None s' ->
  exists (tr : list event) (e : event),
    events s' = events s ++ tr ++ [e]
    /\ ((exists (who : option addr) (msg : string), e = EvError who msg)
        \/ (exists func expr : string, e = EvCritical func expr)).
Proof.
  intros Hrun.
  destruct (read_cases s s' iface object prop None Hrun)
    as [(expr & _ & ->) | [(msg & _ & ->) | (obj & nm & o & _ & _ & _ & H)]].
  - exists [], (EvCritical "gstd_property_reader_read" expr).
    split; [reflexivity | right; by eexists _, _].
  - exists [], (EvError iface msg). split; [reflexivity | left; by eexists _, _].
  - destruct H as [(a & x & ? & _) | [(T & ps & _ & ? & _) | (_ & ->)]];
      try discriminate.
    exists [EvGetProperty obj nm],
      (EvError (Some obj) (nm +:+ " is not a valid resource")).
    split; [simpl; by rewrite <- app_assoc | left; by eexists _, _].
Qed.

(** X9.  A call of the reader that returns a resource has logged no error and
    no warning: the one new record is the getter call on the object and the
    property asked for. *)
Theorem read_success_log (s s' : state) (iface object : option addr)
    (prop : option string) (a : addr) :
  read iface object prop s = Ret (Some a) s' ->
  exists (obj : addr) (nm : string),
    object = Some obj /\ prop = Some nm
    /\ events s' = events s ++ [EvGetProperty obj nm].
Proof.
  intros Hrun.
  destruct (read_cases s s' iface object prop (Some a) Hrun)
    as [(expr & ? & _) | [(msg & ? & _) | (obj & nm & o & -> & -> & _ & H)]];
    try discriminate.
  exists obj, nm. do 2 (split; [done |]).
  destruct H as [(a' & x & _ & -> & _) | [(T & ps & _ & _ & ->) | (? & _)]];
    try discriminate; reflexivity.
Qed.

(** X10.  The pointer a successful call of the reader returns is never
    dangling and never a foreign object: in the heap after the call it is a
    live instance of a class that derives from [GstdObject]. *)
Theorem read_returns_live_resource (s s' : state) (iface object : option addr)
    (prop : option string) (a : addr) :
  read iface object prop s = Ret (Some a) s' ->
  exists p : GstdObject,
    heap s' !! a = Some p /\ is_gstd_type (g_type (g_class p)) = true.
Proof.
  intros Hrun.
  destruct (read_cases s s' iface object prop (Some a) Hrun)
    as [(expr & ? & _) | [(msg & ? & _) | (obj & nm & o & _ & _ & _ & H)]];
    try discriminate.
  destruct H as [(a' & x & [= <-] & -> & _ & Ha & Hx)
                | [(T & ps & HT & [= ->] & ->) | (? & _)]];
    try discriminate.
  - by exists x.
  - exists (new_object T (pspec_name ps) obj).
    split; [apply lookup_insert_eq |].
    by destruct HT as [-> | ->].
Qed.


(** X13.  Nothing is cached: the dispatcher called twice in a row for the
    same boolean, integer or string property builds two instances at two
    different addresses, equal in class, name and target, and both are in
    the heap afterwards. *)
Theorem mask_type_twice_new_instance (s : state) (obj : addr) (o : GstdObject)
    (nm : string) (pspec : GParamSpec) :
  heap s !! obj = Some o ->
  g_object_class_find_property (g_class o) nm = Some pspec ->
  value_type pspec ∈ masked_types ->
  exists (a1 a2 : addr) (s1 s2 : state) (p : GstdObject),
    mask (Some obj) (Some nm) s = Ret (Some a1) s1
    /\ mask (Some obj) (Some nm) s1 = Ret (Some a2) s2
    /\ a1 <> a2
    /\ heap s2 !! a1 = Some p
    /\ heap s2 !! a2 = Some p.
Proof.
  intros Hobj Hfind Ht.
  destruct (mask_type_masked obj o nm pspec Hfind Ht) as (T & _ & Hmask).
  set (p := new_object T (pspec_name pspec) obj).
  set (s1 := allocated p s).
  set (s2 := allocated p s1).
  assert (heap s1 !! obj = Some o) as Hobj1
    by (apply insert_fresh_frame; exact Hobj).
  assert (heap s1 !! fresh (dom (heap s)) = Some p) as Hnew1
    by apply lookup_insert_eq.
  exists (fresh (dom (heap s))), (fresh (dom (heap s1))), s1, s2, p.
  split; [| split; [| split; [| split]]].
  - apply (Hmask s Hobj).
  - apply (Hmask s1 Hobj1).
  - intros E. rewrite E, fresh_heap_None in Hnew1. discriminate.
  - apply insert_fresh_frame. exact Hnew1.
  - apply lookup_insert_eq.
Qed.

(** X14.  Reading twice a property that holds a resource returns the same
    pointer both times; each call only adds the record of its getter
    call. *)
Theorem read_twice_same_resource (s : state) (i obj a : addr)
    (o x : GstdObject) (nm : string) (pspec : GParamSpec) :
  heap s !! obj = Some o ->
  g_object_class_find_property (g_class o) nm = Some pspec ->
  IS_READ (flags pspec) <> 0 ->
  Z.land (flags pspec) G_PARAM_READABLE <> 0 ->
  property_value o nm = v_object (Some a) ->
  heap s !! a = Some x ->
  is_gstd_type (g_type (g_class x)) = true ->
  read (Some i) (Some obj) (Some nm) s =
    Ret (Some a) (logged (EvGetProperty obj nm) s)
  /\ read (Some i) (Some obj) (Some nm) (logged (EvGetProperty obj nm) s) =
       Ret (Some a)
         (mk_state (heap s)
            (events s ++ [EvGetProperty obj nm; EvGetProperty obj nm])).
Proof.
  intros Hobj Hfind H1 H2 Hval Ha Hx. split.
  - rewrite (read_readable _ _ _ s i obj o nm pspec Hobj Hfind H1 H2). simpl.
    rewrite (stored_pointer_found _ o nm pspec Hfind), Hval. simpl.
    by rewrite Ha, Hx.
  - rewrite (read_readable _ _ _ (logged (EvGetProperty obj nm) s) i obj o nm
               pspec Hobj Hfind H1 H2). simpl.
    rewrite (stored_pointer_found _ o nm pspec Hfind), Hval. simpl.
    rewrite Ha, Hx. unfold logged. simpl. by rewrite <- app_assoc.
Qed.

(** X15.  The reader instance carries no state: a call that returns a
    resource returns the same resource and the same state through any other
    reader instance. *)
Theorem read_reader_independent (s s' : state) (i1 i2 : addr)
    (object : option addr) (prop : option string) (a : addr) :
  read (Some i1) object prop s = Ret (Some a) s' ->
  read (Some i2) object prop s = Ret (Some a) s'.
Proof.
  destruct object as [obj|];
    [| unfold gstd_property_reader_read; run; discriminate].
  destruct prop as [nm|];
    [| unfold gstd_property_reader_read; run; discriminate].
  destruct (heap s !! obj) as [o|] eqn:Hobj;
    [| unfold gstd_property_reader_read; run; rewrite Hobj; discriminate].
  destruct (g_object_class_find_property (g_class o) nm) as [pspec|] eqn:Hfind;
    [| unfold gstd_property_reader_read; run;
       rewrite Hobj; simpl; rewrite Hfind; simpl; rewrite Hobj; discriminate].
  destruct (Z.eq_dec (IS_READ (flags pspec)) 0) as [H1|H1];
    [unfold gstd_property_reader_read; run;
     rewrite Hobj; simpl; rewrite Hfind, H1; discriminate |].
  destruct (Z.eq_dec (Z.land (flags pspec) G_PARAM_READABLE) 0) as [H2|H2];
    [unfold gstd_property_reader_read; run;
     rewrite Hobj; simpl; rewrite Hfind, H2, orb_true_r; discriminate |].
  by rewrite (read_readable _ _ _ s i1 obj o nm pspec Hobj Hfind H1 H2),
    (read_readable _ _ _ s i2 obj o nm pspec Hobj Hfind H1 H2).
Qed.

(** X16.  The dispatcher has no case for the other fundamental types of
    GLib: a property of type long or unsigned long, enumeration, flags,
    float, double, pointer, boxed or object makes it return [NULL] after one
    error record on the object, and build nothing. *)
Theorem mask_type_other_fundamentals (s : state) (obj : addr) (o : GstdObject)
    (nm : string) (pspec : GParamSpec) :
  heap s !! obj = Some o ->
  g_object_class_find_property (g_class o) nm = Some pspec ->
  value_type pspec ∈ [G_TYPE_LONG; G_TYPE_ULONG; G_TYPE_ENUM; G_TYPE_FLAGS;
                      G_TYPE_FLOAT; G_TYPE_DOUBLE; G_TYPE_POINTER; G_TYPE_BOXED;
                      G_TYPE_OBJECT] ->
  mask (Some obj) (Some nm) s =
    Ret None (logged (EvError (Some obj) (nm +:+ " is not a valid resource")) s).
Proof.
  intros Hobj Hfind Ht.
  rewrite (mask_type_found _ s obj o nm pspec Hobj Hfind). simpl.
  repeat (apply elem_of_cons in Ht as [-> | Ht]); try reflexivity.
  by apply elem_of_nil in Ht.
Qed.

(** X5.  The check for a missing property is in the reader only.  For a name
    that is no property of a live object, the reader returns [NULL] with the
    heap as before, while the dispatcher called on its own with the same
    arguments stops on the [NULL] descriptor it dereferences. *)
Theorem missing_property_reader_and_dispatcher (s : state) (i obj : addr)
    (o : GstdObject) (nm : string) :
  heap s !! obj = Some o ->
  g_object_class_find_property (g_class o) nm = None ->
  mask (Some obj) (Some nm) s = Fault NullParamSpec
  /\ exists s' : state,
       read (Some i) (Some obj) (Some nm) s = Ret None s' /\ heap s' = heap s.
Proof.
  intros Hobj Hfind. split.
  - unfold gstd_property_mask_type. run. rewrite Hobj. simpl. by rewrite Hfind.
  - unfold gstd_property_reader_read. run.
    rewrite Hobj. simpl. rewrite Hfind. simpl. rewrite Hobj. simpl.
    by eexists.
Qed.

(** X12.  One call of the reader calls the getter at most once, and only on
    the object and the property it was asked for. *)
Theorem read_getter_at_most_once (s s' : state) (iface object : option addr)
    (prop : option string) (r : option addr) :
  read iface object prop s = Ret r s' ->
  getter_calls (events s') = getter_calls (events s)
  \/ (exists (obj : addr) (nm : string),
        object = Some obj /\ prop = Some nm
        /\ getter_calls (events s') = getter_calls (events s) ++ [(obj, nm)]).
Proof.
  intros Hrun.
  destruct (read_cases s s' iface object prop r Hrun)
    as [(expr & _ & ->) | [(msg & _ & ->) | (obj & nm & o & -> & -> & _ & H)]].
  - left. simpl. rewrite getter_calls_app. apply app_nil_r.
  - left. simpl. rewrite getter_calls_app. apply app_nil_r.
  - right. exists obj, nm. do 2 (split; [done |]).
    destruct H as [(a & x & _ & -> & _) | [(T & ps & _ & _ & ->) | (_ & ->)]];
      simpl;
      rewrite ?getter_calls_app; simpl; by rewrite ?app_nil_r.
Qed.

(** X17.  Reading a readable property that holds a string other than
    [NULL], the boolean [TRUE], an integer whose low 32 bits are not all
    zero, or a double whose 64 bits are not all zero does not return: the
    instance check dereferences what [g_object_get] stored in the pointer
    variable, whatever the type of the property, the rest of its class and
    the previous content of the variable. *)
Theorem read_stops_on_non_pointer (s : state) (i obj : addr) (o : GstdObject)
    (nm : string) (pspec : GParamSpec) :
  heap s !! obj = Some o ->
  g_object_class_find_property (g_class o) nm = Some pspec ->
  IS_READ (flags pspec) <> 0 ->
  Z.land (flags pspec) G_PARAM_READABLE <> 0 ->
  (exists str : string, property_value o nm = v_string (Some str))
  \/ property_value o nm = v_boolean true
  \/ (exists z : Z, property_value o nm = v_int z /\ Z.land z (Z.ones 32) <> 0)
  \/ (exists bits : Z,
        property_value o nm = v_double bits /\ Z.land bits (Z.ones 64) <> 0) ->
  read (Some i) (Some obj) (Some nm) s = Fault NotAnInstance.
Proof.
  intros Hobj Hfind H1 H2 Hval.
  rewrite (read_readable _ _ _ s i obj o nm pspec Hobj Hfind H1 H2). simpl.
  rewrite (stored_pointer_found _ o nm pspec Hfind).
  assert (lcopy indeterminate (value_type pspec) (property_value o nm) = p_wild)
    as ->; [| reflexivity].
  destruct Hval as [(str & ->) | [-> | [(z & -> & Hz) | (bits & -> & Hb)]]];
    simpl.
  - reflexivity.
  - apply pointer_of_bits_wild. rewrite store32_low. discriminate.
  - destruct ((value_type pspec =? G_TYPE_INT) || (value_type pspec =? G_TYPE_UINT));
      apply pointer_of_bits_wild; [by rewrite store32_low | done].
  - unfold pointer_of_bits. by rewrite (proj2 (Z.eqb_neq _ _) Hb).
Qed.


End Further.

(** ** The further properties on the element [e1] *)

Section FurtherOnScenario.

Import Scenario.

Local Abbreviation e1_read :=
  (gstd_property_reader_read GSTD_PARAM_READ no_properties stack_slot).
Local Abbreviation e1_mask :=
  (gstd_property_mask_type no_properties).
Local Abbreviation e1_new := (new_instance no_properties).

Lemma mask_type_boolean_witness :
  e1_mask (Some 1%positive) (Some "mute"%string) s0 =
    Ret (Some (fresh (dom (heap s0))))
      (mk_state
         (<[fresh (dom (heap s0)) :=
              e1_new GSTD_TYPE_PROPERTY_BOOLEAN "mute" 1%positive]> (heap s0))
         (events s0)).
Proof.
  apply (mask_type_boolean no_properties s0 1%positive e1 "mute"
           (mk_pspec "mute" readable_flags G_TYPE_BOOLEAN)); reflexivity.
Defined.

Lemma mask_type_null_argument_witness :
  exists expr : string,
    e1_mask (Some 1%positive) None s0 =
      Ret None (logged (EvCritical "gstd_property_mask_type" expr) s0).
Proof.
  apply (mask_type_null_argument no_properties s0 (Some 1%positive) None).
  right. reflexivity.
Defined.

Lemma missing_property_reader_and_dispatcher_witness :
  e1_mask (Some 1%positive) (Some "volume-db"%string) s0 = Fault NullParamSpec
  /\ exists s' : state, read "volume-db" = Ret None s' /\ heap s' = heap s0.
Proof.
  apply (missing_property_reader_and_dispatcher GSTD_PARAM_READ no_properties
           stack_slot s0 9%positive 1%positive e1 "volume-db"); reflexivity.
Defined.

Lemma mask_type_frame_witness :
  (forall (b : addr) (x : GstdObject),
      heap s0 !! b = Some x ->
      heap (allocated (e1_new GSTD_TYPE_PROPERTY_BOOLEAN "mute" 1%positive) s0)
        !! b = Some x)
  /\ getter_calls
       (events (allocated (e1_new GSTD_TYPE_PROPERTY_BOOLEAN "mute" 1%positive) s0))
     = getter_calls (events s0).
Proof.
  apply (mask_type_frame no_properties s0
           (allocated (e1_new GSTD_TYPE_PROPERTY_BOOLEAN "mute" 1%positive) s0)
           (Some 1%positive) (Some "mute"%string) (Some 3%positive)).
  vm_compute. reflexivity.
Defined.

Lemma read_failure_builds_nothing_witness :
  heap (logged (EvError reader "The resource hidden is not readable") s0)
  = heap s0.
Proof.
  apply (read_failure_builds_nothing GSTD_PARAM_READ no_properties stack_slot s0
           (logged (EvError reader "The resource hidden is not readable") s0)
           reader (Some 1%positive) (Some "hidden"%string)).
  vm_compute. reflexivity.
Defined.

Lemma read_failure_is_diagnosed_witness :
  exists (tr : list event) (e : event),
    events (logged (EvError reader "No volume-db resource in e1") s0)
    = events s0 ++ tr ++ [e]
    /\ ((exists (who : option addr) (msg : string), e = EvError who msg)
        \/ (exists func expr : string, e = EvCritical func expr)).
Proof.
  apply (read_failure_is_diagnosed GSTD_PARAM_READ no_properties stack_slot s0
           (logged (EvError reader "No volume-db resource in e1") s0)
           reader (Some 1%positive) (Some "volume-db"%string)).
  vm_compute. reflexivity.
Defined.

Lemma read_success_log_witness :
  exists (obj : addr) (nm : string),
    Some 1%positive = Some obj /\ Some "sink"%string = Some nm
    /\ events (logged (EvGetProperty 1%positive "sink") s0)
       = events s0 ++ [EvGetProperty obj nm].
Proof.
  apply (read_success_log GSTD_PARAM_READ no_properties stack_slot s0
           (logged (EvGetProperty 1%positive "sink") s0)
           reader (Some 1%positive) (Some "sink"%string) 2%positive).
  vm_compute. reflexivity.
Defined.

Lemma read_returns_live_resource_witness :
  exists p : GstdObject,
    heap (logged (EvGetProperty 1%positive "sink") s0) !! 2%positive = Some p
    /\ is_gstd_type (g_type (g_class p)) = true.
Proof.
  apply (read_returns_live_resource GSTD_PARAM_READ no_properties stack_slot s0
           (logged (EvGetProperty 1%positive "sink") s0)
           reader (Some 1%positive) (Some "sink"%string) 2%positive).
  vm_compute. reflexivity.
Defined.


Lemma read_getter_at_most_once_witness :
  getter_calls (events (logged (EvGetProperty 1%positive "sink") s0))
  = getter_calls (events s0)
  \/ (exists (obj : addr) (nm : string),
        Some 1%positive = Some obj /\ Some "sink"%string = Some nm
        /\ getter_calls (events (logged (EvGetProperty 1%positive "sink") s0))
           = getter_calls (events s0) ++ [(obj, nm)]).
Proof.
  apply (read_getter_at_most_once GSTD_PARAM_READ no_properties stack_slot s0
           (logged (EvGetProperty 1%positive "sink") s0)
           reader (Some 1%positive) (Some "sink"%string) (Some 2%positive)).
  vm_compute. reflexivity.
Defined.

Lemma mask_type_twice_new_instance_witness :
  exists (a1 a2 : addr) (s1 s2 : state) (p : GstdObject),
    e1_mask (Some 1%positive) (Some "name"%string) s0 = Ret (Some a1) s1
    /\ e1_mask (Some 1%positive) (Some "name"%string) s1 = Ret (Some a2) s2
    /\ a1 <> a2
    /\ heap s2 !! a1 = Some p
    /\ heap s2 !! a2 = Some p.
Proof.
  apply (mask_type_twice_new_instance no_properties s0 1%positive e1 "name"
           (mk_pspec "name" readable_flags G_TYPE_STRING)).
  - reflexivity.
  - reflexivity.
  - apply list_elem_of_further. apply list_elem_of_here.
Defined.

Lemma read_twice_same_resource_witness :
  e1_read (Some 9%positive) (Some 1%positive) (Some "sink"%string) s0 =
    Ret (Some 2%positive) (logged (EvGetProperty 1%positive "sink") s0)
  /\ e1_read (Some 9%positive) (Some 1%positive) (Some "sink"%string)
       (logged (EvGetProperty 1%positive "sink") s0) =
       Ret (Some 2%positive)
         (mk_state (heap s0)
            (events s0 ++ [EvGetProperty 1%positive "sink";
                           EvGetProperty 1%positive "sink"])).
Proof.
  apply (read_twice_same_resource GSTD_PARAM_READ no_properties stack_slot s0
           9%positive 1%positive 2%positive e1 fakesink0 "sink"
           (mk_pspec "sink" readable_flags G_TYPE_OBJECT));
    try reflexivity; discriminate.
Defined.

Lemma read_reader_independent_witness :
  e1_read (Some 7%positive) (Some 1%positive) (Some "sink"%string) s0 =
    Ret (Some 2%positive) (logged (EvGetProperty 1%positive "sink") s0).
Proof.
  apply (read_reader_independent GSTD_PARAM_READ no_properties stack_slot s0
           (logged (EvGetProperty 1%positive "sink") s0)
           9%positive 7%positive (Some 1%positive) (Some "sink"%string)
           2%positive).
  vm_compute. reflexivity.
Defined.

Lemma mask_type_other_fundamentals_witness :
  e1_mask (Some 1%positive) (Some "volume"%string) s0 =
    Ret None
      (logged (EvError (Some 1%positive) "volume is not a valid resource") s0).
Proof.
  apply (mask_type_other_fundamentals no_properties s0 1%positive e1 "volume"
           (mk_pspec "volume" readable_flags G_TYPE_DOUBLE)).
  - reflexivity.
  - reflexivity.
  - do 5 apply list_elem_of_further. apply list_elem_of_here.
Defined.

Lemma read_stops_on_non_pointer_witness :
  e1_read (Some 9%positive) (Some 1%positive) (Some "latency-ns"%string) s0
  = Fault NotAnInstance.
Proof.
  apply (read_stops_on_non_pointer GSTD_PARAM_READ no_properties stack_slot s0
           9%positive 1%positive e1 "latency-ns"
           (mk_pspec "latency-ns" readable_flags G_TYPE_INT64)).
  - reflexivity.
  - reflexivity.
  - discriminate.
  - discriminate.
  - right. right. left. exists 1200. split; [reflexivity | discriminate].
Defined.


End FurtherOnScenario.
